(** * The Monte Carlo probability-of-failure estimator of appBLOG_1.py

    The page computes, three times, a sample of the undrained strength
    S_u from a rescaled Beta distribution, divides it by the driving
    term [Ns * gamma * H] and counts the share of safety factors below
    one.  The two textually identical definitions of [run_analysis]
    (lines 116-145 and 270-299) feed figures 1 and 2; [calculate_data]
    (lines 456-464) feeds the two scenarios of figure 3.

    Modelling choices.
    - Python floats are read as exact rationals ([Q]); the rounding of
      binary64 arithmetic is outside the model.  Equalities between
      computed numbers are therefore stated with [==].
    - A Python exception is a value of [PyError]; code that may raise
      returns a [Result].
    - A NumPy float that may be [nan] or [inf] (a division by zero does
      not raise in NumPy) is a value of [npfloat].
    - The pseudo-random generator is an explicit argument [rng]: for
      shape parameters [a] and [b], [rng a b i] is the [i]-th standard
      Beta(a,b) variate handed out during the call.
    - The plotting part of [run_analysis] (lines 133-142, density
      curves through [beta.pdf] and [gaussian_kde]) is not modelled;
      the embedding stops after line 131 and returns the local
      variables computed so far. *)

From Stdlib Require Import QArith ZArith List Bool Lia Lqa.
Import ListNotations.

Local Open Scope Q_scope.

(** ** Python: exceptions and float division *)

Inductive PyError : Set :=
| ZeroDivisionError
| ValueError.

Inductive Result (A : Type) : Type :=
| Ok (a : A)
| Raise (e : PyError).

Arguments Ok {A} a.
Arguments Raise {A} e.

Definition bind {A B : Type} (m : Result A) (k : A -> Result B) : Result B :=
  match m with
  | Ok a => k a
  | Raise e => Raise e
  end.

Notation "x <- m ;; k" := (bind m (fun x => k))
  (at level 61, m at next level, right associativity).

(** [a / b] on Python floats: raises on a zero divisor. *)
Definition py_div (a b : Q) : Result Q :=
  if Qeq_bool b 0 then Raise ZeroDivisionError else Ok (a / b).

Definition Qlt_bool (a b : Q) : bool := negb (Qle_bool b a).

(** ** NumPy: floats with nan and inf, arrays as lists *)

Inductive npfloat : Set :=
| Fin (q : Q)
| PosInf
| NegInf
| NaN.

(** [x / y] on NumPy scalars or array elements with finite operands:
    a zero divisor yields [inf], [-inf] or [nan] (with a warning), never
    an exception. *)
Definition true_divide (x y : Q) : npfloat :=
  if Qeq_bool y 0 then
    match x ?= 0 with
    | Eq => NaN
    | Gt => PosInf
    | Lt => NegInf
    end
  else Fin (x / y).

(** Division of a possibly non-finite float by a count. *)
Definition npfloat_div (x : npfloat) (d : Q) : npfloat :=
  match x with
  | Fin q => true_divide q d
  | PosInf => if Qle_bool 0 d then PosInf else NegInf
  | NegInf => if Qle_bool 0 d then NegInf else PosInf
  | NaN => NaN
  end.

Definition npfloat_add (x y : npfloat) : npfloat :=
  match x, y with
  | NaN, _ | _, NaN => NaN
  | Fin a, Fin b => Fin (a + b)
  | PosInf, NegInf | NegInf, PosInf => NaN
  | PosInf, _ | _, PosInf => PosInf
  | NegInf, _ | _, NegInf => NegInf
  end.

(** [arr / c]: element-wise division of a finite array by a scalar. *)
Definition np_divide (arr : list Q) (c : Q) : list npfloat :=
  map (fun s => true_divide s c) arr.

(** [x < c] on one element; comparisons with [nan] are false. *)
Definition npfloat_lt (x : npfloat) (c : Q) : bool :=
  match x with
  | Fin q => Qlt_bool q c
  | NegInf => true
  | PosInf | NaN => false
  end.

(** [arr < c]: element-wise comparison. *)
Definition np_less (arr : list npfloat) (c : Q) : list bool :=
  map (fun x => npfloat_lt x c) arr.

(** [np.sum] of a boolean array: the number of [True] entries. *)
Fixpoint np_sum_bool (bs : list bool) : Z :=
  match bs with
  | [] => 0%Z
  | b :: bs' => ((if b then 1 else 0) + np_sum_bool bs')%Z
  end.

(** [np.sum] of a float array. *)
Fixpoint np_sum (arr : list npfloat) : npfloat :=
  match arr with
  | [] => Fin 0
  | x :: arr' => npfloat_add x (np_sum arr')
  end.

(** [np.mean]: the sum divided by the number of elements; [nan] on an
    empty array. *)
Definition np_mean (arr : list npfloat) : npfloat :=
  npfloat_div (np_sum arr) (inject_Z (Z.of_nat (length arr))).

(** ** SciPy: [beta.rvs(a, b, loc=loc, scale=scale, size=size)]

    [rv_continuous.rvs] raises [ValueError] unless the shape
    parameters are positive and [scale >= 0]; a zero scale returns
    [loc * ones(size)]; otherwise the standard variates are rescaled
    as [vals * scale + loc].  A negative [size] is refused by NumPy
    with a [ValueError] as well. *)
Definition beta_rvs (rng : Q -> Q -> nat -> Q)
    (a b loc scale : Q) (size : Z) : Result (list Q) :=
  if negb (Qlt_bool 0 a && Qlt_bool 0 b && Qle_bool 0 scale) then
    Raise ValueError
  else if (size <? 0)%Z then Raise ValueError
  else if Qeq_bool scale 0 then Ok (repeat (loc * 1) (Z.to_nat size))
  else
    Ok (map (fun i => rng a b i * scale + loc) (seq 0 (Z.to_nat size))).

(** ** [run_analysis] (figures 1 and 2) *)

(** The module-level names [run_analysis] reads when it is called. *)
Record Globals : Type := {
  H : Q;
  gamma : Q;
  Ns : Q;
  SU_MEAN : Q;
  SAMPLES : Z
}.

Module RA.
(** The local variables of [run_analysis] after line 131. *)
Record locals : Type := {
  std_dev : Q;
  width : Q;
  low_su : Q;
  high_su : Q;
  mode_su : Q;
  alpha : Q;
  beta_param : Q;
  su_samples : list Q;
  actual_mean_su : npfloat;
  fs_samples : list npfloat;
  pf : npfloat;
  mean_fs_val : npfloat
}.
End RA.

Definition run_analysis (g : Globals) (rng : Q -> Q -> nat -> Q) (cov : Q)
  : Result RA.locals :=
  let std_dev := cov * SU_MEAN g in
  let width := std_dev * 6 in
  let low_su := SU_MEAN g - width / 2 in
  let high_su := SU_MEAN g + width / 2 in
  let mode_su := SU_MEAN g in
  qa <- py_div (4 * (mode_su - low_su)) (high_su - low_su) ;;
  let alpha := 1 + qa in
  qb <- py_div (4 * (high_su - mode_su)) (high_su - low_su) ;;
  let beta_param := 1 + qb in
  su_samples <- beta_rvs rng alpha beta_param low_su width (SAMPLES g) ;;
  let actual_mean_su := np_mean (map Fin su_samples) in
  let fs_samples := np_divide su_samples (Ns g * gamma g * H g) in
  let pf :=
    true_divide (inject_Z (np_sum_bool (np_less fs_samples 1)))
                (inject_Z (SAMPLES g)) in
  let mean_fs_val := np_mean fs_samples in
  Ok {| RA.std_dev := std_dev; RA.width := width;
        RA.low_su := low_su; RA.high_su := high_su; RA.mode_su := mode_su;
        RA.alpha := alpha; RA.beta_param := beta_param;
        RA.su_samples := su_samples; RA.actual_mean_su := actual_mean_su;
        RA.fs_samples := fs_samples; RA.pf := pf;
        RA.mean_fs_val := mean_fs_val |}.

(** ** [calculate_data] (figure 3) *)

Module CD.
(** The local variables of [calculate_data] at its [return]. *)
Record locals : Type := {
  std : Q;
  w : Q;
  low : Q;
  high : Q;
  samples : list Q;
  fs : list npfloat;
  pf : npfloat;
  mean_fs : npfloat
}.
End CD.

Definition calculate_data (rng : Q -> Q -> nat -> Q)
    (mean cov Ns H gamma : Q) (SAMPLES : Z) : Result CD.locals :=
  let std := cov * mean in
  let w := std * 6 in
  let low := mean - w / 2 in
  let high := mean + w / 2 in
  samples <- beta_rvs rng 4 4 low w SAMPLES ;;
  let fs := np_divide samples (Ns * gamma * H) in
  let pf :=
    true_divide (inject_Z (np_sum_bool (np_less fs 1))) (inject_Z SAMPLES) in
  let mean_fs := np_mean fs in
  Ok {| CD.std := std; CD.w := w; CD.low := low; CD.high := high;
        CD.samples := samples; CD.fs := fs; CD.pf := pf;
        CD.mean_fs := mean_fs |}.

(** ** The call sites *)

Module Figure1.
(** Lines 110-114 and the call of line 148. *)
Definition globals : Globals :=
  {| H := 15; gamma := 19; Ns := 0.181; SU_MEAN := 70; SAMPLES := 10000 |}.
Definition call (rng : Q -> Q -> nat -> Q) (cov : Q) : Result RA.locals :=
  run_analysis globals rng cov.
End Figure1.

Module Figure2.
(** Lines 264-268 and the call of line 302. *)
Definition globals : Globals :=
  {| H := 15; gamma := 19; Ns := 0.181; SU_MEAN := 70; SAMPLES := 10000 |}.
Definition call (rng : Q -> Q -> nat -> Q) (cov : Q) : Result RA.locals :=
  run_analysis globals rng cov.
End Figure2.

Module Figure3.
(** Lines 440-444 and the calls of lines 467 and 468. *)
Definition H : Q := 12.
Definition gamma : Q := 19.
Definition Ns1 : Q := 0.181.
Definition Ns2 : Q := 0.181.
Definition SAMPLES : Z := 10000.
Definition call1 (rng : Q -> Q -> nat -> Q) (cov1 : Q) : Result CD.locals :=
  calculate_data rng 65 cov1 Ns1 H gamma SAMPLES.
Definition call2 (rng : Q -> Q -> nat -> Q) (cov2 : Q) : Result CD.locals :=
  calculate_data rng 55 cov2 Ns2 H gamma SAMPLES.
End Figure3.

(** ** Reference notions used in the statements *)

(** The sum and the arithmetic average of a finite sample. *)
Fixpoint Qsum (l : list Q) : Q :=
  match l with
  | [] => 0
  | x :: l' => x + Qsum l'
  end.

Definition average (l : list Q) : Q :=
  Qsum l / inject_Z (Z.of_nat (length l)).

(** The number of elements strictly below a threshold. *)
Definition count_below (c : Q) (l : list Q) : nat :=
  length (filter (fun q => Qlt_bool q c) l).

(** [fin_eq x q]: the NumPy float [x] is finite and equal to [q]. *)
Definition fin_eq (x : npfloat) (q : Q) : Prop :=
  match x with
  | Fin q' => q' == q
  | _ => False
  end.

(** The resisting-capacity constant of a call of [run_analysis]. *)
Definition capacity (g : Globals) : Q := Ns g * gamma g * H g.


(** What [run_analysis] leaves in its local variables when it reaches
    line 131. *)
Definition RA_post (g : Globals) (rng : Q -> Q -> nat -> Q) (cov : Q)
    (r : RA.locals) : Prop :=
  RA.std_dev r = cov * SU_MEAN g /\
  RA.width r = RA.std_dev r * 6 /\
  RA.low_su r = SU_MEAN g - RA.width r / 2 /\
  RA.high_su r = SU_MEAN g + RA.width r / 2 /\
  RA.mode_su r = SU_MEAN g /\
  RA.alpha r =
    1 + 4 * (RA.mode_su r - RA.low_su r) / (RA.high_su r - RA.low_su r) /\
  RA.beta_param r =
    1 + 4 * (RA.high_su r - RA.mode_su r) / (RA.high_su r - RA.low_su r) /\
  beta_rvs rng (RA.alpha r) (RA.beta_param r) (RA.low_su r) (RA.width r)
           (SAMPLES g) = Ok (RA.su_samples r) /\
  RA.actual_mean_su r = np_mean (map Fin (RA.su_samples r)) /\
  RA.fs_samples r = np_divide (RA.su_samples r) (capacity g) /\
  RA.pf r =
    true_divide (inject_Z (np_sum_bool (np_less (RA.fs_samples r) 1)))
                (inject_Z (SAMPLES g)) /\
  RA.mean_fs_val r = np_mean (RA.fs_samples r).

(** The same for [calculate_data] at its [return]. *)
Definition CD_post (rng : Q -> Q -> nat -> Q) (mean cov Ns H gamma : Q)
    (SAMPLES : Z) (r : CD.locals) : Prop :=
  CD.std r = cov * mean /\
  CD.w r = CD.std r * 6 /\
  CD.low r = mean - CD.w r / 2 /\
  CD.high r = mean + CD.w r / 2 /\
  beta_rvs rng 4 4 (CD.low r) (CD.w r) SAMPLES = Ok (CD.samples r) /\
  CD.fs r = np_divide (CD.samples r) (Ns * gamma * H) /\
  CD.pf r =
    true_divide (inject_Z (np_sum_bool (np_less (CD.fs r) 1)))
                (inject_Z SAMPLES) /\
  CD.mean_fs r = np_mean (CD.fs r).

(** * Basic facts about the primitives *)

(** Linear arithmetic on [Q] in the presence of halves. *)
Ltac qlra := unfold Qdiv in *; change (/ 2) with (1 # 2) in *; lra.

Lemma Qlt_bool_iff (a b : Q) : Qlt_bool a b = true <-> a < b.
Proof.
  unfold Qlt_bool. rewrite negb_true_iff.
  split; intro Hab.
  - apply Qnot_le_lt. intro Hle. apply Qle_bool_iff in Hle. congruence.
  - destruct (Qle_bool b a) eqn:E; [|reflexivity].
    apply Qle_bool_iff in E. exfalso. apply (Qlt_not_le _ _ Hab E).
Qed.

Lemma Qlt_bool_false_iff (a b : Q) : Qlt_bool a b = false <-> b <= a.
Proof.
  unfold Qlt_bool. rewrite negb_false_iff. apply Qle_bool_iff.
Qed.

Lemma Qeq_bool_false (a b : Q) : ~ a == b -> Qeq_bool a b = false.
Proof.
  intro Hn. destruct (Qeq_bool a b) eqn:E; [|reflexivity].
  apply Qeq_bool_iff in E. contradiction.
Qed.

Lemma py_div_ok (a b : Q) : ~ b == 0 -> py_div a b = Ok (a / b).
Proof.
  intro Hb. unfold py_div. now rewrite (Qeq_bool_false _ _ Hb).
Qed.

Lemma py_div_zero (a b : Q) : b == 0 -> py_div a b = Raise ZeroDivisionError.
Proof.
  intro Hb. unfold py_div. now rewrite (Qeq_eq_bool _ _ Hb).
Qed.

Lemma true_divide_fin (x y : Q) : ~ y == 0 -> true_divide x y = Fin (x / y).
Proof.
  intro Hy. unfold true_divide. now rewrite (Qeq_bool_false _ _ Hy).
Qed.

Lemma inject_Z_pos_nonzero (n : Z) : (0 < n)%Z -> ~ inject_Z n == 0.
Proof.
  intros Hn Heq. unfold Qeq in Heq. simpl in Heq. lia.
Qed.

Lemma np_sum_Fin (l : list Q) : np_sum (map Fin l) = Fin (Qsum l).
Proof.
  induction l as [|x l IH]; simpl; [reflexivity|].
  now rewrite IH.
Qed.

Lemma np_mean_Fin (l : list Q) :
  l <> [] -> np_mean (map Fin l) = Fin (average l).
Proof.
  intro Hl. unfold np_mean, average.
  rewrite np_sum_Fin, length_map. simpl.
  apply true_divide_fin, inject_Z_pos_nonzero.
  destruct l; [congruence | simpl; lia].
Qed.

Lemma np_sum_bool_count (c : Q) (l : list Q) :
  np_sum_bool (np_less (map Fin l) c) = Z.of_nat (count_below c l).
Proof.
  unfold count_below, np_less.
  induction l as [|x l IH]; [reflexivity|].
  cbn [map np_sum_bool filter npfloat_lt]. rewrite IH.
  destruct (Qlt_bool x c); cbn [length]; lia.
Qed.

Lemma np_divide_Fin (l : list Q) (c : Q) :
  ~ c == 0 -> np_divide l c = map Fin (map (fun s => s / c) l).
Proof.
  intro Hc. unfold np_divide. rewrite map_map.
  apply map_ext. intro s. now apply true_divide_fin.
Qed.

Lemma beta_rvs_pos (rng : Q -> Q -> nat -> Q) (a b loc scale : Q) (size : Z) :
  0 < a -> 0 < b -> 0 < scale -> (0 <= size)%Z ->
  beta_rvs rng a b loc scale size =
  Ok (map (fun i => rng a b i * scale + loc) (seq 0 (Z.to_nat size))).
Proof.
  intros Ha Hb Hs Hn. unfold beta_rvs.
  apply Qlt_bool_iff in Ha, Hb. rewrite Ha, Hb.
  assert (Hs' : Qle_bool 0 scale = true)
    by (apply Qle_bool_iff, Qlt_le_weak, Hs).
  rewrite Hs'. cbn [andb negb].
  assert (Hn' : (size <? 0)%Z = false) by (apply Z.ltb_ge, Hn).
  rewrite Hn'.
  rewrite Qeq_bool_false; [reflexivity|].
  intro E. rewrite E in Hs. discriminate.
Qed.

Lemma beta_rvs_zero_scale (rng : Q -> Q -> nat -> Q) (a b loc scale : Q)
    (size : Z) :
  0 < a -> 0 < b -> scale == 0 -> (0 <= size)%Z ->
  beta_rvs rng a b loc scale size = Ok (repeat (loc * 1) (Z.to_nat size)).
Proof.
  intros Ha Hb Hs Hn. unfold beta_rvs.
  apply Qlt_bool_iff in Ha, Hb. rewrite Ha, Hb.
  assert (Hs' : Qle_bool 0 scale = true).
  { apply Qle_bool_iff. rewrite Hs. apply Qle_refl. }
  rewrite Hs'. cbn [andb negb].
  assert (Hn' : (size <? 0)%Z = false) by (apply Z.ltb_ge, Hn).
  rewrite Hn'. now rewrite (Qeq_eq_bool _ _ Hs).
Qed.


Lemma beta_rvs_neg_size (rng : Q -> Q -> nat -> Q) (a b loc scale : Q)
    (size : Z) :
  (size < 0)%Z -> beta_rvs rng a b loc scale size = Raise ValueError.
Proof.
  intro Hn. unfold beta_rvs.
  destruct (negb _); [reflexivity|].
  apply Z.ltb_lt in Hn. now rewrite Hn.
Qed.

Lemma beta_rvs_length (rng : Q -> Q -> nat -> Q) (a b loc scale : Q)
    (size : Z) (xs : list Q) :
  beta_rvs rng a b loc scale size = Ok xs -> length xs = Z.to_nat size.
Proof.
  unfold beta_rvs. intro E.
  destruct (negb _); [discriminate|].
  destruct (size <? 0)%Z; [discriminate|].
  destruct (Qeq_bool scale 0); injection E as <-.
  - apply repeat_length.
  - now rewrite length_map, length_seq.
Qed.

(** * The two functions: what they return and when *)

Lemma run_analysis_inv (g : Globals) (rng : Q -> Q -> nat -> Q) (cov : Q)
    (r : RA.locals) :
  run_analysis g rng cov = Ok r -> RA_post g rng cov r.
Proof.
  unfold run_analysis, bind. intro E.
  destruct (py_div (4 * (SU_MEAN g - _)) _) as [qa|] eqn:Ea; [|discriminate].
  destruct (py_div (4 * (_ - SU_MEAN g)) _) as [qb|] eqn:Eb; [|discriminate].
  destruct (beta_rvs _ _ _ _ _ _) as [su|] eqn:Es; [|discriminate].
  unfold py_div in Ea, Eb.
  destruct (Qeq_bool _ 0); [discriminate|].
  injection Ea as <-. injection Eb as <-. injection E as <-.
  unfold RA_post, capacity. cbn.
  repeat split; try reflexivity. exact Es.
Qed.

Lemma calculate_data_inv (rng : Q -> Q -> nat -> Q) (mean cov Ns H gamma : Q)
    (SAMPLES : Z) (r : CD.locals) :
  calculate_data rng mean cov Ns H gamma SAMPLES = Ok r ->
  CD_post rng mean cov Ns H gamma SAMPLES r.
Proof.
  unfold calculate_data, bind. intro E.
  destruct (beta_rvs _ _ _ _ _ _) as [xs|] eqn:Es; [|discriminate].
  injection E as <-.
  unfold CD_post. cbn.
  repeat split; try reflexivity. exact Es.
Qed.

(** The PERT exponents with the mode in the middle of the support. *)
Lemma pert_alpha_mid (m wd : Q) :
  ~ wd == 0 ->
  1 + 4 * (m - (m - wd / 2)) / (m + wd / 2 - (m - wd / 2)) == 3.
Proof.
  intro Hw. field. intro E. apply Hw. lra.
Qed.

Lemma pert_beta_mid (m wd : Q) :
  ~ wd == 0 ->
  1 + 4 * (m + wd / 2 - m) / (m + wd / 2 - (m - wd / 2)) == 3.
Proof.
  intro Hw. field. intro E. apply Hw. lra.
Qed.

Lemma spread_pos (cov mean : Q) : 0 < cov -> 0 < mean -> 0 < cov * mean * 6.
Proof.
  intros Hc Hm.
  assert (0 < cov * mean) by (apply Qmult_lt_0_compat; assumption).
  lra.
Qed.

Lemma run_analysis_total (g : Globals) (rng : Q -> Q -> nat -> Q) (cov : Q) :
  0 < cov -> 0 < SU_MEAN g -> (0 <= SAMPLES g)%Z ->
  exists r, run_analysis g rng cov = Ok r.
Proof.
  intros Hc Hm Hn.
  pose proof (spread_pos cov (SU_MEAN g) Hc Hm) as Hw.
  unfold run_analysis, bind.
  set (wd := cov * SU_MEAN g * 6) in *.
  assert (Hw0 : ~ wd == 0) by lra.
  assert (Hd : ~ SU_MEAN g + wd / 2 - (SU_MEAN g - wd / 2) == 0) by qlra.
  rewrite !(py_div_ok _ _ Hd).
  rewrite beta_rvs_pos; [eexists; reflexivity | | | exact Hw | exact Hn].
  - rewrite (pert_alpha_mid _ _ Hw0). reflexivity.
  - rewrite (pert_beta_mid _ _ Hw0). reflexivity.
Qed.

Lemma calculate_data_total (rng : Q -> Q -> nat -> Q) (mean cov Ns H gamma : Q)
    (SAMPLES : Z) :
  0 <= cov * mean -> (0 <= SAMPLES)%Z ->
  exists r, calculate_data rng mean cov Ns H gamma SAMPLES = Ok r.
Proof.
  intros Hw Hn. unfold calculate_data, bind.
  destruct (Qeq_bool (cov * mean * 6) 0) eqn:E.
  - apply Qeq_bool_iff in E.
    rewrite beta_rvs_zero_scale; [eexists; reflexivity | | | exact E | exact Hn];
      reflexivity.
  - apply Qeq_bool_neq in E.
    rewrite beta_rvs_pos; [eexists; reflexivity | | | | exact Hn];
      try reflexivity.
    lra.
Qed.

(** The samples of a successful call, written out. *)
Lemma RA_post_samples (g : Globals) (rng : Q -> Q -> nat -> Q) (cov : Q)
    (r : RA.locals) :
  0 < cov -> 0 < SU_MEAN g -> RA_post g rng cov r ->
  RA.su_samples r =
    map (fun i => rng (RA.alpha r) (RA.beta_param r) i * RA.width r
                  + RA.low_su r)
        (seq 0 (Z.to_nat (SAMPLES g))) /\
  (0 <= SAMPLES g)%Z.
Proof.
  intros Hc Hm (Hsd & Hwd & _ & _ & _ & _ & _ & Hs & _).
  assert (Hw : 0 < RA.width r)
    by (rewrite Hwd, Hsd; now apply spread_pos).
  destruct (Z.ltb_spec (SAMPLES g) 0) as [Hn|Hn].
  - rewrite (beta_rvs_neg_size _ _ _ _ _ _ Hn) in Hs. discriminate.
  - split; [|exact Hn].
    unfold beta_rvs in Hs.
    destruct (negb _); [discriminate|].
    apply Z.ltb_ge in Hn. rewrite Hn in Hs.
    rewrite Qeq_bool_false in Hs by lra.
    now injection Hs as <-.
Qed.

Lemma CD_post_samples (rng : Q -> Q -> nat -> Q) (mean cov Ns H gamma : Q)
    (SAMPLES : Z) (r : CD.locals) :
  0 < cov -> 0 < mean -> CD_post rng mean cov Ns H gamma SAMPLES r ->
  CD.samples r =
    map (fun i => rng 4 4 i * CD.w r + CD.low r) (seq 0 (Z.to_nat SAMPLES)) /\
  (0 <= SAMPLES)%Z.
Proof.
  intros Hc Hm (Hsd & Hwd & _ & _ & Hs & _).
  assert (Hw : 0 < CD.w r)
    by (rewrite Hwd, Hsd; now apply spread_pos).
  destruct (Z.ltb_spec SAMPLES 0) as [Hn|Hn].
  - rewrite (beta_rvs_neg_size _ _ _ _ _ _ Hn) in Hs. discriminate.
  - split; [|exact Hn].
    unfold beta_rvs in Hs.
    destruct (negb _); [discriminate|].
    apply Z.ltb_ge in Hn. rewrite Hn in Hs.
    rewrite Qeq_bool_false in Hs by lra.
    now injection Hs as <-.
Qed.

(** * Inputs used in the examples *)

(** A generator handing out 1/4 and 3/4 in turn, whatever the shape. *)
Definition alternating_rng : Q -> Q -> nat -> Q :=
  fun _ _ i => if Nat.even i then 1 # 4 else 3 # 4.



(** The input constraints of the estimator. *)
Definition valid_globals (g : Globals) : Prop :=
  0 < SU_MEAN g /\ 0 < Ns g /\ 0 < gamma g /\ 0 < H g /\ (0 < SAMPLES g)%Z.

Definition valid_inputs (mean Ns H gamma : Q) (SAMPLES : Z) : Prop :=
  0 < mean /\ 0 < Ns /\ 0 < gamma /\ 0 < H /\ (0 < SAMPLES)%Z.

Lemma valid_globals_capacity (g : Globals) :
  valid_globals g -> 0 < capacity g.
Proof.
  intros (_ & Hn & Hg & Hh & _). unfold capacity.
  repeat apply Qmult_lt_0_compat; assumption.
Qed.

Lemma valid_inputs_capacity (mean Ns H gamma : Q) (SAMPLES : Z) :
  valid_inputs mean Ns H gamma SAMPLES -> 0 < Ns * gamma * H.
Proof.
  intros (_ & Hn & Hg & Hh & _).
  repeat apply Qmult_lt_0_compat; assumption.
Qed.

Lemma figure1_valid : valid_globals Figure1.globals.
Proof. repeat split. Qed.

Lemma figure2_valid : valid_globals Figure2.globals.
Proof. repeat split. Qed.

(** * Distribution parameters *)





(** * Shape parameters *)

(** [xs] is the sample obtained from [n] standard Beta(a,b) variates
    of [rng], rescaled to start at [loc] and span [scale]. *)
Definition drawn_with (rng : Q -> Q -> nat -> Q) (a b loc scale : Q)
    (n : Z) (xs : list Q) : Prop :=
  xs = map (fun i => rng a b i * scale + loc) (seq 0 (Z.to_nat n)).






(** * Safety factors and failure statistics *)

Lemma np_divide_length (l : list Q) (c : Q) :
  length (np_divide l c) = length l.
Proof. unfold np_divide. apply length_map. Qed.



Lemma seq_map_nonempty (A : Type) (f : nat -> A) (n : nat) :
  (0 < n)%nat -> map f (seq 0 n) <> [].
Proof.
  intros Hn E. apply (f_equal (@length A)) in E.
  rewrite length_map, length_seq in E. simpl in E. lia.
Qed.

(** A successful call of [run_analysis] on valid inputs, with the
    facts the statistics rest on. *)
Lemma run_analysis_valid (g : Globals) (rng : Q -> Q -> nat -> Q) (cov : Q) :
  valid_globals g -> 0 < cov ->
  exists r, run_analysis g rng cov = Ok r /\
    RA_post g rng cov r /\
    drawn_with rng (RA.alpha r) (RA.beta_param r) (RA.low_su r)
               (RA.width r) (SAMPLES g) (RA.su_samples r) /\
    RA.su_samples r <> [] /\
    RA.fs_samples r =
      map Fin (map (fun s => s / capacity g) (RA.su_samples r)).
Proof.
  intros Hv Hc.
  pose proof (valid_globals_capacity g Hv) as Hcap.
  destruct Hv as (Hm & _ & _ & _ & Hn).
  destruct (run_analysis_total g rng cov Hc Hm) as [r Hr]; [lia|].
  exists r. split; [exact Hr|].
  pose proof (run_analysis_inv _ _ _ _ Hr) as Hp.
  destruct (RA_post_samples g rng cov r Hc Hm Hp) as [Hs _].
  split; [exact Hp|]. split; [exact Hs|].
  split.
  - rewrite Hs. apply seq_map_nonempty. lia.
  - destruct Hp as (_ & _ & _ & _ & _ & _ & _ & _ & _ & Hfs & _).
    rewrite Hfs. apply np_divide_Fin. lra.
Qed.

Lemma calculate_data_valid (rng : Q -> Q -> nat -> Q)
    (mean cov Ns H gamma : Q) (SAMPLES : Z) :
  valid_inputs mean Ns H gamma SAMPLES -> 0 < cov ->
  exists r, calculate_data rng mean cov Ns H gamma SAMPLES = Ok r /\
    CD_post rng mean cov Ns H gamma SAMPLES r /\
    drawn_with rng 4 4 (CD.low r) (CD.w r) SAMPLES (CD.samples r) /\
    CD.samples r <> [] /\
    CD.fs r = map Fin (map (fun s => s / (Ns * gamma * H)) (CD.samples r)).
Proof.
  intros Hv Hc.
  pose proof (valid_inputs_capacity _ _ _ _ _ Hv) as Hcap.
  destruct Hv as (Hm & _ & _ & _ & Hn).
  destruct (calculate_data_total rng mean cov Ns H gamma SAMPLES)
    as [r Hr]; [|lia|].
  { apply Qlt_le_weak, Qmult_lt_0_compat; assumption. }
  exists r. split; [exact Hr|].
  pose proof (calculate_data_inv _ _ _ _ _ _ _ _ Hr) as Hp.
  destruct (CD_post_samples _ _ _ _ _ _ _ _ Hc Hm Hp) as [Hs _].
  split; [exact Hp|]. split; [exact Hs|].
  split.
  - rewrite Hs. apply seq_map_nonempty. lia.
  - destruct Hp as (_ & _ & _ & _ & _ & Hfs & _).
    rewrite Hfs. apply np_divide_Fin. lra.
Qed.

Lemma drawn_with_length (rng : Q -> Q -> nat -> Q) (a b loc scale : Q)
    (n : Z) (xs : list Q) :
  drawn_with rng a b loc scale n xs -> length xs = Z.to_nat n.
Proof.
  unfold drawn_with. intros ->. now rewrite length_map, length_seq.
Qed.





(** The failure statistics of a safety-factor sample: the share of
    values strictly below one and the arithmetic average. *)
Definition failure_statistic (safetyFactor : list npfloat) (sampleCount : Z)
    (probabilityOfFailure meanSafetyFactor : npfloat) : Prop :=
  exists fsq : list Q,
    safetyFactor = map Fin fsq /\
    Z.of_nat (length fsq) = sampleCount /\
    fin_eq probabilityOfFailure
           (inject_Z (Z.of_nat (count_below 1 fsq)) / inject_Z sampleCount) /\
    fin_eq meanSafetyFactor (average fsq).

Lemma failure_statistic_intro (fsq : list Q) (n : Z) :
  (0 < n)%Z -> length fsq = Z.to_nat n ->
  failure_statistic (map Fin fsq) n
    (true_divide (inject_Z (np_sum_bool (np_less (map Fin fsq) 1)))
                 (inject_Z n))
    (np_mean (map Fin fsq)).
Proof.
  intros Hn Hlen. exists fsq.
  split; [reflexivity|]. split; [lia|].
  split.
  - rewrite true_divide_fin by now apply inject_Z_pos_nonzero.
    rewrite np_sum_bool_count. simpl. reflexivity.
  - rewrite np_mean_Fin; [simpl; reflexivity|].
    intros ->. simpl in Hlen. lia.
Qed.

(** C1. On valid input the probability of failure is the number of
    safety factors strictly below 1.0 divided by the sample count, and
    the mean safety factor is their arithmetic average; any call that
    ends with the same safety factors reports the same two numbers. *)
Theorem failure_statistic_computed :
  (forall g rng cov,
      valid_globals g -> 0 < cov ->
      exists r, run_analysis g rng cov = Ok r /\
        failure_statistic (RA.fs_samples r) (SAMPLES g)
                          (RA.pf r) (RA.mean_fs_val r) /\
        forall rng' cov' r',
          run_analysis g rng' cov' = Ok r' ->
          RA.fs_samples r' = RA.fs_samples r ->
          RA.pf r' = RA.pf r /\ RA.mean_fs_val r' = RA.mean_fs_val r) /\
  (forall rng mean cov Ns H gamma SAMPLES,
      valid_inputs mean Ns H gamma SAMPLES -> 0 < cov ->
      exists r, calculate_data rng mean cov Ns H gamma SAMPLES = Ok r /\
        failure_statistic (CD.fs r) SAMPLES (CD.pf r) (CD.mean_fs r) /\
        forall rng' mean' cov' Ns' H' gamma' r',
          calculate_data rng' mean' cov' Ns' H' gamma' SAMPLES = Ok r' ->
          CD.fs r' = CD.fs r ->
          CD.pf r' = CD.pf r /\ CD.mean_fs r' = CD.mean_fs r).
Proof.
  split.
  - intros g rng cov Hv Hc.
    destruct (run_analysis_valid g rng cov Hv Hc)
      as (r & Hr & Hp & Hs & _ & Hfs).
    exists r. split; [exact Hr|].
    destruct Hp as (_ & _ & _ & _ & _ & _ & _ & _ & _ & _ & Hpf & Hmf).
    split.
    + rewrite Hpf, Hmf, Hfs.
      apply failure_statistic_intro; [apply Hv|].
      rewrite length_map. now apply drawn_with_length in Hs.
    + intros rng' cov' r' Hr' Heq.
      destruct (run_analysis_inv _ _ _ _ Hr')
        as (_ & _ & _ & _ & _ & _ & _ & _ & _ & _ & Hpf' & Hmf').
      now rewrite Hpf, Hmf, Hpf', Hmf', Heq.
  - intros rng mean cov Ns H gamma SAMPLES Hv Hc.
    destruct (calculate_data_valid rng mean cov Ns H gamma SAMPLES Hv Hc)
      as (r & Hr & Hp & Hs & _ & Hfs).
    exists r. split; [exact Hr|].
    destruct Hp as (_ & _ & _ & _ & _ & _ & Hpf & Hmf).
    split.
    + rewrite Hpf, Hmf, Hfs.
      apply failure_statistic_intro; [apply Hv|].
      rewrite length_map. now apply drawn_with_length in Hs.
    + intros rng' mean' cov' Ns' H' gamma' r' Hr' Heq.
      destruct (calculate_data_inv _ _ _ _ _ _ _ _ Hr')
        as (_ & _ & _ & _ & _ & _ & Hpf' & Hmf').
      now rewrite Hpf, Hmf, Hpf', Hmf', Heq.
Qed.

Lemma failure_statistic_computed_witness :
  (valid_globals Figure2.globals /\ 0 < 0.15 /\
   exists r, run_analysis Figure2.globals alternating_rng 0.15 = Ok r /\
     failure_statistic (RA.fs_samples r) (SAMPLES Figure2.globals)
                       (RA.pf r) (RA.mean_fs_val r) /\
     forall rng' cov' r',
       run_analysis Figure2.globals rng' cov' = Ok r' ->
       RA.fs_samples r' = RA.fs_samples r ->
       RA.pf r' = RA.pf r /\ RA.mean_fs_val r' = RA.mean_fs_val r) /\
  (valid_inputs 55 0.181 12 19 10000 /\ 0 < 0.1 /\
   exists r,
     calculate_data alternating_rng 55 0.1 0.181 12 19 10000 = Ok r /\
     failure_statistic (CD.fs r) 10000 (CD.pf r) (CD.mean_fs r) /\
     forall rng' mean' cov' Ns' H' gamma' r',
       calculate_data rng' mean' cov' Ns' H' gamma' 10000 = Ok r' ->
       CD.fs r' = CD.fs r ->
       CD.pf r' = CD.pf r /\ CD.mean_fs r' = CD.mean_fs r).
Proof.
  split.
  - split; [exact figure2_valid|]. split; [reflexivity|].
    apply (proj1 failure_statistic_computed);
      [exact figure2_valid | reflexivity].
  - assert (Hv : valid_inputs 55 0.181 12 19 10000) by (repeat split).
    split; [exact Hv|]. split; [reflexivity|].
    apply (proj2 failure_statistic_computed); [exact Hv | reflexivity].
Defined.



(** * Bounded support *)





(** * Probability of failure against the coefficient of variation *)


Lemma np_sum_bool_map_le (A : Type) (f1 f2 : A -> bool) (l : list A) :
  (forall x, In x l -> f1 x = true -> f2 x = true) ->
  (np_sum_bool (map f1 l) <= np_sum_bool (map f2 l))%Z.
Proof.
  induction l as [|x l IH]; intro Himp; cbn [map np_sum_bool]; [lia|].
  assert (IH' : (np_sum_bool (map f1 l) <= np_sum_bool (map f2 l))%Z).
  { apply IH. intros y Hy. apply Himp. now right. }
  pose proof (Himp x (or_introl eq_refl)) as Hx.
  destruct (f1 x); destruct (f2 x); try lia;
    specialize (Hx eq_refl); discriminate.
Qed.





(** * Parameters at the call sites *)

(** What a call of the estimator with the given inputs leaves behind:
    bounds three standard deviations around [meanValue], [sampleCount]
    strength values, safety factors obtained by dividing by
    [stabilityNumber * unitWeight * slopeHeight], and the failure
    statistics over [sampleCount]. *)
Definition estimated_with
    (meanValue cov stabilityNumber unitWeight slopeHeight : Q)
    (sampleCount : Z) (lowerBound upperBound : Q) (strength : list Q)
    (safetyFactor : list npfloat) (pf meanSafetyFactor : npfloat) : Prop :=
  lowerBound == meanValue - 3 * (cov * meanValue) /\
  upperBound == meanValue + 3 * (cov * meanValue) /\
  Z.of_nat (length strength) = sampleCount /\
  safetyFactor =
    map (fun s => Fin (s / (stabilityNumber * unitWeight * slopeHeight)))
        strength /\
  failure_statistic safetyFactor sampleCount pf meanSafetyFactor.

Lemma run_analysis_estimated (g : Globals) (rng : Q -> Q -> nat -> Q)
    (cov : Q) :
  valid_globals g -> 0 < cov ->
  exists r, run_analysis g rng cov = Ok r /\
    estimated_with (SU_MEAN g) cov (Ns g) (gamma g) (H g) (SAMPLES g)
      (RA.low_su r) (RA.high_su r) (RA.su_samples r) (RA.fs_samples r)
      (RA.pf r) (RA.mean_fs_val r).
Proof.
  intros Hv Hc.
  destruct (run_analysis_valid g rng cov Hv Hc)
    as (r & Hr & Hp & Hs & _ & Hfs).
  exists r. split; [exact Hr|].
  apply drawn_with_length in Hs.
  destruct Hp as (Hsd & Hwd & Hlo & Hhi & _ & _ & _ & _ & _ & _ & Hpf & Hmf).
  assert (Hn : (0 < SAMPLES g)%Z) by apply Hv.
  unfold estimated_with.
  split; [rewrite Hlo, Hwd, Hsd; qlra|].
  split; [rewrite Hhi, Hwd, Hsd; qlra|].
  split; [lia|].
  split; [rewrite Hfs, map_map; reflexivity|].
  rewrite Hpf, Hmf, Hfs.
  apply failure_statistic_intro; [exact Hn|].
  now rewrite length_map.
Qed.

Lemma calculate_data_estimated (rng : Q -> Q -> nat -> Q)
    (mean cov Ns H gamma : Q) (SAMPLES : Z) :
  valid_inputs mean Ns H gamma SAMPLES -> 0 < cov ->
  exists r, calculate_data rng mean cov Ns H gamma SAMPLES = Ok r /\
    estimated_with mean cov Ns gamma H SAMPLES
      (CD.low r) (CD.high r) (CD.samples r) (CD.fs r)
      (CD.pf r) (CD.mean_fs r).
Proof.
  intros Hv Hc.
  destruct (calculate_data_valid rng mean cov Ns H gamma SAMPLES Hv Hc)
    as (r & Hr & Hp & Hs & _ & Hfs).
  exists r. split; [exact Hr|].
  apply drawn_with_length in Hs.
  destruct Hp as (Hsd & Hwd & Hlo & Hhi & _ & _ & Hpf & Hmf).
  assert (Hn : (0 < SAMPLES)%Z) by apply Hv.
  unfold estimated_with.
  split; [rewrite Hlo, Hwd, Hsd; qlra|].
  split; [rewrite Hhi, Hwd, Hsd; qlra|].
  split; [lia|].
  split; [rewrite Hfs, map_map; reflexivity|].
  rewrite Hpf, Hmf, Hfs.
  apply failure_statistic_intro; [exact Hn|].
  now rewrite length_map.
Qed.

(** C8. The constants at the call sites are: sample count 10000, unit
    weight 19, stability number 0.181, slope height 15 for figures 1
    and 2 and 12 for figure 3, mean strength 70 for figures 1 and 2 and
    65 and 55 for the two scenarios of figure 3; every call with a
    positive coefficient of variation estimates with these inputs. *)
Theorem call_site_parameters :
  (SU_MEAN Figure1.globals = 70 /\ Ns Figure1.globals = 0.181 /\
   gamma Figure1.globals = 19 /\ H Figure1.globals = 15 /\
   SAMPLES Figure1.globals = 10000%Z) /\
  (SU_MEAN Figure2.globals = 70 /\ Ns Figure2.globals = 0.181 /\
   gamma Figure2.globals = 19 /\ H Figure2.globals = 15 /\
   SAMPLES Figure2.globals = 10000%Z) /\
  (Figure3.Ns1 = 0.181 /\ Figure3.Ns2 = 0.181 /\ Figure3.gamma = 19 /\
   Figure3.H = 12 /\ Figure3.SAMPLES = 10000%Z) /\
  forall rng cov, 0 < cov ->
    (exists r, Figure1.call rng cov = Ok r /\
       estimated_with 70 cov 0.181 19 15 10000
         (RA.low_su r) (RA.high_su r) (RA.su_samples r) (RA.fs_samples r)
         (RA.pf r) (RA.mean_fs_val r)) /\
    (exists r, Figure2.call rng cov = Ok r /\
       estimated_with 70 cov 0.181 19 15 10000
         (RA.low_su r) (RA.high_su r) (RA.su_samples r) (RA.fs_samples r)
         (RA.pf r) (RA.mean_fs_val r)) /\
    (exists r, Figure3.call1 rng cov = Ok r /\
       estimated_with 65 cov 0.181 19 12 10000
         (CD.low r) (CD.high r) (CD.samples r) (CD.fs r)
         (CD.pf r) (CD.mean_fs r)) /\
    (exists r, Figure3.call2 rng cov = Ok r /\
       estimated_with 55 cov 0.181 19 12 10000
         (CD.low r) (CD.high r) (CD.samples r) (CD.fs r)
         (CD.pf r) (CD.mean_fs r)).
Proof.
  split; [repeat split|]. split; [repeat split|]. split; [repeat split|].
  intros rng cov Hc.
  split; [exact (run_analysis_estimated Figure1.globals rng cov
                   figure1_valid Hc)|].
  split; [exact (run_analysis_estimated Figure2.globals rng cov
                   figure2_valid Hc)|].
  split.
  - apply (calculate_data_estimated rng 65 cov Figure3.Ns1 Figure3.H
             Figure3.gamma Figure3.SAMPLES); [repeat split | exact Hc].
  - apply (calculate_data_estimated rng 55 cov Figure3.Ns2 Figure3.H
             Figure3.gamma Figure3.SAMPLES); [repeat split | exact Hc].
Qed.

Lemma call_site_parameters_witness :
  0 < 0.15 /\
  (exists r, Figure1.call alternating_rng 0.15 = Ok r /\
     estimated_with 70 0.15 0.181 19 15 10000
       (RA.low_su r) (RA.high_su r) (RA.su_samples r) (RA.fs_samples r)
       (RA.pf r) (RA.mean_fs_val r)) /\
  (exists r, Figure2.call alternating_rng 0.15 = Ok r /\
     estimated_with 70 0.15 0.181 19 15 10000
       (RA.low_su r) (RA.high_su r) (RA.su_samples r) (RA.fs_samples r)
       (RA.pf r) (RA.mean_fs_val r)) /\
  (exists r, Figure3.call1 alternating_rng 0.15 = Ok r /\
     estimated_with 65 0.15 0.181 19 12 10000
       (CD.low r) (CD.high r) (CD.samples r) (CD.fs r)
       (CD.pf r) (CD.mean_fs r)) /\
  (exists r, Figure3.call2 alternating_rng 0.15 = Ok r /\
     estimated_with 55 0.15 0.181 19 12 10000
       (CD.low r) (CD.high r) (CD.samples r) (CD.fs r)
       (CD.pf r) (CD.mean_fs r)).
Proof.
  split; [reflexivity|].
  apply (proj2 (proj2 (proj2 call_site_parameters)) alternating_rng 0.15).
  reflexivity.
Defined.

(** * Inputs outside the slider range *)


(** At a zero coefficient of variation [run_analysis] stops at line
    123 with a division by zero. *)
Lemma run_analysis_zero_cov (g : Globals) (rng : Q -> Q -> nat -> Q) :
  run_analysis g rng 0 = Raise ZeroDivisionError.
Proof.
  unfold run_analysis, bind.
  rewrite py_div_zero; [reflexivity|]. unfold Qdiv. ring.
Qed.









(** * Further properties of the two estimators *)

Lemma np_sum_bool_bounds (bs : list bool) :
  (0 <= np_sum_bool bs <= Z.of_nat (length bs))%Z.
Proof.
  induction bs as [|b bs IH]; cbn [np_sum_bool length]; [lia|].
  destruct b; lia.
Qed.

Lemma fraction_in_unit_interval (c n : Z) :
  (0 <= c <= n)%Z -> (0 < n)%Z -> 0 <= inject_Z c / inject_Z n <= 1.
Proof.
  intros [H0 H1] Hn.
  assert (Hq : 0 < inject_Z n) by (unfold Qlt; simpl; lia).
  split.
  - apply Qle_shift_div_l; [exact Hq|]. rewrite Qmult_0_l.
    unfold Qle. simpl. lia.
  - apply Qle_shift_div_r; [exact Hq|]. rewrite Qmult_1_l.
    rewrite <- Zle_Qle. exact H1.
Qed.

Lemma np_divide_less_length (xs : list Q) (c t : Q) :
  length (np_less (np_divide xs c) t) = length xs.
Proof. unfold np_less, np_divide. now rewrite !length_map. Qed.

(** The probability of failure of any returned result is a fraction
    between 0 and 1, whatever the other inputs (a zero coefficient of
    variation or a zero capacity included). *)
Theorem probability_of_failure_is_a_fraction :
  (forall g rng cov r,
      run_analysis g rng cov = Ok r -> (0 < SAMPLES g)%Z ->
      exists p, RA.pf r = Fin p /\ 0 <= p <= 1) /\
  (forall rng mean cov Ns H gamma SAMPLES r,
      calculate_data rng mean cov Ns H gamma SAMPLES = Ok r ->
      (0 < SAMPLES)%Z ->
      exists p, CD.pf r = Fin p /\ 0 <= p <= 1).
Proof.
  split.
  - intros g rng cov r Hr Hn.
    destruct (run_analysis_inv _ _ _ _ Hr)
      as (_ & _ & _ & _ & _ & _ & _ & Hs & _ & Hfs & Hpf & _).
    apply beta_rvs_length in Hs.
    rewrite true_divide_fin in Hpf by now apply inject_Z_pos_nonzero.
    eexists. split; [exact Hpf|].
    apply fraction_in_unit_interval; [|exact Hn].
    pose proof (np_sum_bool_bounds (np_less (RA.fs_samples r) 1)) as Hb.
    rewrite Hfs, np_divide_less_length, Hs in Hb.
    rewrite Hfs. lia.
  - intros rng mean cov Ns H gamma SAMPLES r Hr Hn.
    destruct (calculate_data_inv _ _ _ _ _ _ _ _ Hr)
      as (_ & _ & _ & _ & Hs & Hfs & Hpf & _).
    apply beta_rvs_length in Hs.
    rewrite true_divide_fin in Hpf by now apply inject_Z_pos_nonzero.
    eexists. split; [exact Hpf|].
    apply fraction_in_unit_interval; [|exact Hn].
    pose proof (np_sum_bool_bounds (np_less (CD.fs r) 1)) as Hb.
    rewrite Hfs, np_divide_less_length, Hs in Hb.
    rewrite Hfs. lia.
Qed.

Lemma probability_of_failure_is_a_fraction_witness :
  (exists r, run_analysis Figure1.globals alternating_rng 0.3 = Ok r /\
     (0 < SAMPLES Figure1.globals)%Z /\
     exists p, RA.pf r = Fin p /\ 0 <= p <= 1) /\
  (exists r, calculate_data alternating_rng 65 0 0 12 19 10000 = Ok r /\
     (0 < 10000)%Z /\
     exists p, CD.pf r = Fin p /\ 0 <= p <= 1).
Proof.
  split.
  - destruct (run_analysis_total Figure1.globals alternating_rng 0.3)
      as [r Hr]; [reflexivity | reflexivity | discriminate |].
    exists r. split; [exact Hr|]. split; [reflexivity|].
    apply (proj1 probability_of_failure_is_a_fraction
             Figure1.globals alternating_rng 0.3 r Hr). reflexivity.
  - destruct (calculate_data_total alternating_rng 65 0 0 12 19 10000)
      as [r Hr]; [discriminate | discriminate |].
    exists r. split; [exact Hr|]. split; [reflexivity|].
    apply (proj2 probability_of_failure_is_a_fraction
             alternating_rng 65 0 0 12 19 10000%Z r Hr). reflexivity.
Defined.

Lemma np_sum_bool_map_ext (A : Type) (f1 f2 : A -> bool) (l : list A) :
  (forall x, In x l -> f1 x = f2 x) ->
  np_sum_bool (map f1 l) = np_sum_bool (map f2 l).
Proof.
  intro Hext. f_equal. apply map_ext_in. exact Hext.
Qed.

Lemma Qlt_bool_div_one (s cap : Q) :
  0 < cap -> Qlt_bool (s / cap) 1 = Qlt_bool s cap.
Proof.
  intro Hcap.
  destruct (Qlt_bool s cap) eqn:E.
  - apply Qlt_bool_iff. apply Qlt_bool_iff in E.
    apply Qlt_shift_div_r; [exact Hcap|]. now rewrite Qmult_1_l.
  - apply Qlt_bool_false_iff. apply Qlt_bool_false_iff in E.
    apply Qle_shift_div_l; [exact Hcap|]. now rewrite Qmult_1_l.
Qed.

Lemma count_failing_strengths (su : list Q) (cap : Q) :
  0 < cap ->
  np_sum_bool (np_less (map Fin (map (fun s => s / cap) su)) 1)
  = Z.of_nat (count_below cap su).
Proof.
  intro Hcap. rewrite <- np_sum_bool_count.
  unfold np_less. rewrite !map_map.
  apply np_sum_bool_map_ext. intros s _. cbn [npfloat_lt].
  now apply Qlt_bool_div_one.
Qed.

(** The probability of failure is the share of strength values below
    the driving term [Ns * gamma * H]. *)
Theorem failure_is_strength_below_capacity :
  (forall g rng cov,
      valid_globals g -> 0 < cov ->
      exists r, run_analysis g rng cov = Ok r /\
        fin_eq (RA.pf r)
          (inject_Z (Z.of_nat (count_below (Ns g * gamma g * H g)
                                           (RA.su_samples r)))
           / inject_Z (SAMPLES g))) /\
  (forall rng mean cov Ns H gamma SAMPLES,
      valid_inputs mean Ns H gamma SAMPLES -> 0 < cov ->
      exists r, calculate_data rng mean cov Ns H gamma SAMPLES = Ok r /\
        fin_eq (CD.pf r)
          (inject_Z (Z.of_nat (count_below (Ns * gamma * H) (CD.samples r)))
           / inject_Z SAMPLES)).
Proof.
  split.
  - intros g rng cov Hv Hc.
    pose proof (valid_globals_capacity g Hv) as Hcap.
    destruct (run_analysis_valid g rng cov Hv Hc)
      as (r & Hr & Hp & _ & _ & Hfs).
    exists r. split; [exact Hr|].
    destruct Hp as (_ & _ & _ & _ & _ & _ & _ & _ & _ & _ & Hpf & _).
    rewrite Hpf, Hfs, (count_failing_strengths _ _ Hcap).
    rewrite true_divide_fin by (apply inject_Z_pos_nonzero, Hv).
    simpl. reflexivity.
  - intros rng mean cov Ns H gamma SAMPLES Hv Hc.
    pose proof (valid_inputs_capacity _ _ _ _ _ Hv) as Hcap.
    destruct (calculate_data_valid rng mean cov Ns H gamma SAMPLES Hv Hc)
      as (r & Hr & Hp & _ & _ & Hfs).
    exists r. split; [exact Hr|].
    destruct Hp as (_ & _ & _ & _ & _ & _ & Hpf & _).
    rewrite Hpf, Hfs, (count_failing_strengths _ _ Hcap).
    rewrite true_divide_fin by (apply inject_Z_pos_nonzero, Hv).
    simpl. reflexivity.
Qed.

Lemma failure_is_strength_below_capacity_witness :
  (valid_globals Figure1.globals /\ 0 < 0.3 /\
   exists r, run_analysis Figure1.globals alternating_rng 0.3 = Ok r /\
     fin_eq (RA.pf r)
       (inject_Z (Z.of_nat (count_below
          (Ns Figure1.globals * gamma Figure1.globals * H Figure1.globals)
          (RA.su_samples r)))
        / inject_Z (SAMPLES Figure1.globals))) /\
  (valid_inputs 65 0.181 12 19 10000 /\ 0 < 0.2 /\
   exists r,
     calculate_data alternating_rng 65 0.2 0.181 12 19 10000 = Ok r /\
     fin_eq (CD.pf r)
       (inject_Z (Z.of_nat (count_below (0.181 * 19 * 12) (CD.samples r)))
        / inject_Z 10000)).
Proof.
  split.
  - split; [exact figure1_valid|]. split; [reflexivity|].
    apply (proj1 failure_is_strength_below_capacity);
      [exact figure1_valid | reflexivity].
  - assert (Hv : valid_inputs 65 0.181 12 19 10000) by (repeat split).
    split; [exact Hv|]. split; [reflexivity|].
    apply (proj2 failure_is_strength_below_capacity);
      [exact Hv | reflexivity].
Defined.

(** ** The safety factor in closed form *)






#[local] Instance Qlt_bool_comp :
  Proper (Qeq ==> Qeq ==> eq) Qlt_bool.
Proof.
  intros a a' Ha b b' Hb. unfold Qlt_bool. now rewrite Ha, Hb.
Qed.



(** ** Where the samples fall *)







(** ** Sliders and axes of the three figures *)


Module Page.
End Page.






(** ** Certain outcomes *)






(** ** The two means *)





(** ** Two scenarios against each other *)





Module Defaults.
End Defaults.






(** ** The red and the green bars *)

(** [x >= c] on one element; comparisons with [nan] are false. *)
Definition npfloat_ge (x : npfloat) (c : Q) : bool :=
  match x with
  | Fin q => Qle_bool c q
  | PosInf => true
  | NegInf | NaN => false
  end.

(** [arr >= c]: element-wise comparison. *)
Definition np_greater_equal (arr : list npfloat) (c : Q) : list bool :=
  map (fun x => npfloat_ge x c) arr.

(** [arr[mask]]: the elements of [arr] where the boolean array [mask]
    of the same length holds. *)
Fixpoint np_mask (arr : list npfloat) (mask : list bool) : list npfloat :=
  match arr, mask with
  | x :: arr', b :: mask' =>
      if b then x :: np_mask arr' mask' else np_mask arr' mask'
  | _, _ => []
  end.

(** Lines 314 and 496, 505: [fs[fs < 1.0]], the data of the red
    histogram. *)
Definition fail_bars (fs : list npfloat) : list npfloat :=
  np_mask fs (np_less fs 1).

(** Lines 315 and 497, 506: [fs[fs >= 1.0]], the data of the green
    histogram. *)
Definition safe_bars (fs : list npfloat) : list npfloat :=
  np_mask fs (np_greater_equal fs 1).

Definition is_nan (x : npfloat) : bool :=
  match x with NaN => true | _ => false end.

Lemma bars_lengths (fs : list npfloat) :
  (length (fail_bars fs) + length (safe_bars fs) + length (filter is_nan fs)
   = length fs)%nat /\
  np_sum_bool (np_less fs 1) = Z.of_nat (length (fail_bars fs)).
Proof.
  unfold fail_bars, safe_bars, np_less, np_greater_equal.
  induction fs as [|x fs [IH1 IH2]]; [split; reflexivity|].
  cbn [map np_mask filter np_sum_bool].
  destruct x as [q| | |]; cbn [npfloat_lt npfloat_ge is_nan].
  - unfold Qlt_bool. destruct (Qle_bool 1 q); cbn [negb length]; split; lia.
  - cbn [length]. split; lia.
  - cbn [length]. split; lia.
  - cbn [length]. split; lia.
Qed.

Lemma no_nan_in_finite (l : list Q) : filter is_nan (map Fin l) = [].
Proof. induction l as [|x l IH]; [reflexivity | exact IH]. Qed.

Lemma np_mask_Fin (f : npfloat -> bool) (l : list Q) :
  np_mask (map Fin l) (map f (map Fin l))
  = map Fin (filter (fun q => f (Fin q)) l).
Proof.
  induction l as [|q l IH]; [reflexivity|].
  cbn [map np_mask filter]. destruct (f (Fin q)); cbn [map]; now rewrite IH.
Qed.

(** The two histograms of an array of finite safety factors. *)
Lemma bars_of_finite (fsq : list Q) (n : Z) :
  (0 < n)%Z -> length fsq = Z.to_nat n ->
  Z.of_nat (length (fail_bars (map Fin fsq))
            + length (safe_bars (map Fin fsq))) = n /\
  Forall (fun x => exists q, x = Fin q /\ q < 1) (fail_bars (map Fin fsq)) /\
  Forall (fun x => exists q, x = Fin q /\ 1 <= q)
         (safe_bars (map Fin fsq)) /\
  fin_eq (true_divide (inject_Z (np_sum_bool (np_less (map Fin fsq) 1)))
                      (inject_Z n))
         (inject_Z (Z.of_nat (length (fail_bars (map Fin fsq))))
          / inject_Z n).
Proof.
  intros Hn Hlen.
  destruct (bars_lengths (map Fin fsq)) as [Hsum Hcount].
  rewrite no_nan_in_finite, length_map in Hsum. cbn [length] in Hsum.
  split; [lia|].
  split.
  { unfold fail_bars, np_less. rewrite np_mask_Fin.
    apply Forall_map, Forall_forall. intros q Hq.
    apply filter_In in Hq. destruct Hq as [_ Hq]. cbn [npfloat_lt] in Hq.
    exists q. split; [reflexivity | now apply Qlt_bool_iff]. }
  split.
  { unfold safe_bars, np_greater_equal. rewrite np_mask_Fin.
    apply Forall_map, Forall_forall. intros q Hq.
    apply filter_In in Hq. destruct Hq as [_ Hq]. cbn [npfloat_ge] in Hq.
    exists q. split; [reflexivity | now apply Qle_bool_iff]. }
  rewrite Hcount, true_divide_fin by now apply inject_Z_pos_nonzero.
  cbn [fin_eq]. reflexivity.
Qed.

(** On valid input the red and the green bars split the sample: every
    safety factor is in exactly one of the two histograms, the red one
    holds values below 1 and the green one values of at least 1, and
    the share of red values is the probability of failure shown. *)
Theorem bars_split_the_sample :
  (forall g rng cov,
      valid_globals g -> 0 < cov ->
      exists r, run_analysis g rng cov = Ok r /\
        Z.of_nat (length (fail_bars (RA.fs_samples r))
                  + length (safe_bars (RA.fs_samples r))) = SAMPLES g /\
        Forall (fun x => exists q, x = Fin q /\ q < 1)
               (fail_bars (RA.fs_samples r)) /\
        Forall (fun x => exists q, x = Fin q /\ 1 <= q)
               (safe_bars (RA.fs_samples r)) /\
        fin_eq (RA.pf r)
          (inject_Z (Z.of_nat (length (fail_bars (RA.fs_samples r))))
           / inject_Z (SAMPLES g))) /\
  (forall rng mean cov Ns H gamma SAMPLES,
      valid_inputs mean Ns H gamma SAMPLES -> 0 < cov ->
      exists r, calculate_data rng mean cov Ns H gamma SAMPLES = Ok r /\
        Z.of_nat (length (fail_bars (CD.fs r))
                  + length (safe_bars (CD.fs r))) = SAMPLES /\
        Forall (fun x => exists q, x = Fin q /\ q < 1)
               (fail_bars (CD.fs r)) /\
        Forall (fun x => exists q, x = Fin q /\ 1 <= q)
               (safe_bars (CD.fs r)) /\
        fin_eq (CD.pf r)
          (inject_Z (Z.of_nat (length (fail_bars (CD.fs r))))
           / inject_Z SAMPLES)).
Proof.
  split.
  - intros g rng cov Hv Hc.
    destruct (run_analysis_valid g rng cov Hv Hc)
      as (r & Hr & Hp & Hs & _ & Hfs).
    exists r. split; [exact Hr|].
    destruct Hp as (_ & _ & _ & _ & _ & _ & _ & _ & _ & _ & Hpf & _).
    rewrite Hpf, Hfs.
    apply bars_of_finite; [apply Hv|].
    rewrite length_map. exact (drawn_with_length _ _ _ _ _ _ _ Hs).
  - intros rng mean cov Ns H gamma SAMPLES Hv Hc.
    destruct (calculate_data_valid rng mean cov Ns H gamma SAMPLES Hv Hc)
      as (r & Hr & Hp & Hs & _ & Hfs).
    exists r. split; [exact Hr|].
    destruct Hp as (_ & _ & _ & _ & _ & _ & Hpf & _).
    rewrite Hpf, Hfs.
    apply bars_of_finite; [apply Hv|].
    rewrite length_map. exact (drawn_with_length _ _ _ _ _ _ _ Hs).
Qed.

Lemma bars_split_the_sample_witness :
  (valid_globals Figure2.globals /\ 0 < 0.15 /\
   exists r, run_analysis Figure2.globals alternating_rng 0.15 = Ok r /\
     Z.of_nat (length (fail_bars (RA.fs_samples r))
               + length (safe_bars (RA.fs_samples r)))
     = SAMPLES Figure2.globals /\
     Forall (fun x => exists q, x = Fin q /\ q < 1)
            (fail_bars (RA.fs_samples r)) /\
     Forall (fun x => exists q, x = Fin q /\ 1 <= q)
            (safe_bars (RA.fs_samples r)) /\
     fin_eq (RA.pf r)
       (inject_Z (Z.of_nat (length (fail_bars (RA.fs_samples r))))
        / inject_Z (SAMPLES Figure2.globals))) /\
  (valid_inputs 65 0.181 12 19 10000 /\ 0 < 0.2 /\
   exists r,
     calculate_data alternating_rng 65 0.2 0.181 12 19 10000 = Ok r /\
     Z.of_nat (length (fail_bars (CD.fs r))
               + length (safe_bars (CD.fs r))) = 10000%Z /\
     Forall (fun x => exists q, x = Fin q /\ q < 1) (fail_bars (CD.fs r)) /\
     Forall (fun x => exists q, x = Fin q /\ 1 <= q) (safe_bars (CD.fs r)) /\
     fin_eq (CD.pf r)
       (inject_Z (Z.of_nat (length (fail_bars (CD.fs r)))) / inject_Z 10000)).
Proof.
  split.
  - split; [exact figure2_valid|]. split; [reflexivity|].
    apply (proj1 bars_split_the_sample);
      [exact figure2_valid | reflexivity].
  - assert (Hv : valid_inputs 65 0.181 12 19 10000) by (repeat split).
    split; [exact Hv|]. split; [reflexivity|].
    apply (proj2 bars_split_the_sample); [exact Hv | reflexivity].
Defined.

(** ** The grids of the trend lines *)












(** ** The strength curves of figure 3 *)








(** The Beta(4,4) density at [x], written out. *)
Definition density44 (x loc scale : Q) : Q :=
  let y := (x - loc) / scale in
  140 * (y * (1 - y)) * (y * (1 - y)) * (y * (1 - y)) / scale.













Lemma density44_at_centre (lo wd : Q) :
  0 < wd -> density44 (lo + wd / 2) lo wd == (35 # 16) / wd.
Proof.
  intro Hw. unfold density44. field. lra.
Qed.



(** ** Response to the slope height and to the mean strength *)

Lemma pf_le_of_count_le (c1 c2 n : Z) :
  (c1 <= c2)%Z -> (0 < n)%Z ->
  inject_Z c1 / inject_Z n <= inject_Z c2 / inject_Z n.
Proof.
  intros Hc Hn. apply Qmult_le_compat_r.
  - rewrite <- Zle_Qle. exact Hc.
  - apply Qinv_le_0_compat. unfold Qle. simpl. lia.
Qed.

(** With the same draws, a higher slope is never safer: the
    probability of failure does not decrease when the slope height
    grows. *)
Theorem failure_probability_monotone_in_height :
  forall rng mean cov Ns H1 H2 gamma SAMPLES,
    valid_inputs mean Ns H1 gamma SAMPLES -> 0 < cov -> H1 <= H2 ->
    exists r1 r2 p1 p2,
      calculate_data rng mean cov Ns H1 gamma SAMPLES = Ok r1 /\
      calculate_data rng mean cov Ns H2 gamma SAMPLES = Ok r2 /\
      CD.samples r1 = CD.samples r2 /\
      CD.pf r1 = Fin p1 /\ CD.pf r2 = Fin p2 /\ p1 <= p2.
Proof.
  intros rng mean cov Ns H1 H2 gamma SAMPLES Hv1 Hc Hh.
  assert (Hv2 : valid_inputs mean Ns H2 gamma SAMPLES).
  { destruct Hv1 as (Hm & Hn & Hg & Hh1 & Hs).
    repeat split; try assumption. lra. }
  pose proof (valid_inputs_capacity _ _ _ _ _ Hv1) as Hcap1.
  pose proof (valid_inputs_capacity _ _ _ _ _ Hv2) as Hcap2.
  assert (Hcaps : Ns * gamma * H1 <= Ns * gamma * H2).
  { apply Qmult_le_l; [|exact Hh].
    destruct Hv1 as (_ & Hn & Hg & _). now apply Qmult_lt_0_compat. }
  destruct (calculate_data_valid rng mean cov Ns H1 gamma SAMPLES Hv1 Hc)
    as (r1 & Hr1 & Hp1 & Hs1 & _ & Hfs1).
  destruct (calculate_data_valid rng mean cov Ns H2 gamma SAMPLES Hv2 Hc)
    as (r2 & Hr2 & Hp2 & Hs2 & _ & Hfs2).
  assert (Hn : (0 < SAMPLES)%Z) by apply Hv1.
  assert (Hn0 : ~ inject_Z SAMPLES == 0) by now apply inject_Z_pos_nonzero.
  destruct Hp1 as (Hsd1 & Hwd1 & Hlo1 & _ & _ & _ & Hpf1 & _).
  destruct Hp2 as (Hsd2 & Hwd2 & Hlo2 & _ & _ & _ & Hpf2 & _).
  assert (Hsame : CD.samples r1 = CD.samples r2).
  { rewrite Hs1, Hs2, Hlo1, Hlo2, Hwd1, Hwd2, Hsd1, Hsd2. reflexivity. }
  rewrite true_divide_fin in Hpf1 by exact Hn0.
  rewrite true_divide_fin in Hpf2 by exact Hn0.
  exists r1, r2. do 2 eexists.
  split; [exact Hr1|]. split; [exact Hr2|]. split; [exact Hsame|].
  split; [exact Hpf1|]. split; [exact Hpf2|].
  apply pf_le_of_count_le; [|exact Hn].
  rewrite Hfs1, Hfs2, Hsame. unfold np_less. rewrite !map_map.
  apply np_sum_bool_map_le.
  intros s _. cbn [npfloat_lt].
  rewrite (Qlt_bool_div_one _ _ Hcap1), (Qlt_bool_div_one _ _ Hcap2).
  rewrite !Qlt_bool_iff. intro Hs. lra.
Qed.

Lemma failure_probability_monotone_in_height_witness :
  valid_inputs 65 0.181 12 19 10000 /\ 0 < 0.2 /\ 12 <= 15 /\
  exists r1 r2 p1 p2,
    calculate_data alternating_rng 65 0.2 0.181 12 19 10000 = Ok r1 /\
    calculate_data alternating_rng 65 0.2 0.181 15 19 10000 = Ok r2 /\
    CD.samples r1 = CD.samples r2 /\
    CD.pf r1 = Fin p1 /\ CD.pf r2 = Fin p2 /\ p1 <= p2.
Proof.
  assert (Hv : valid_inputs 65 0.181 12 19 10000) by (repeat split).
  split; [exact Hv|]. split; [reflexivity|]. split; [discriminate|].
  apply (failure_probability_monotone_in_height
           alternating_rng 65 0.2 0.181 12 15 19 10000%Z Hv);
    [reflexivity | discriminate].
Defined.




